(** * A fluent HTTP request builder: model of [request.go] and its properties

    The development embeds the Go package [httpclient] (file [request.go])
    as Rocq functions and proves properties of the builder, of the
    materialisation of the transport request and of the retry executor.

    Conventions of the embedding.
    - A Go [int] is a 64-bit signed integer.  It is embedded as [Z].  The
      only arithmetic of the file is [retryCount-1], evaluated under the
      guard [retryCount > 0], so no operation of the file can wrap; the
      theorems are stated for every [Z] and hold a fortiori in the range of
      [int].
    - A Go [string] is an immutable sequence of bytes: [string].  A [[]byte]
      is a [list byte]; the [nil] slice is the empty list.
    - A Go [error] is an interface value that may be [nil]: [option GoError].
    - The receiver [r *Request] is mutated in place and returned; a method
      is embedded as a function from the old record to the new one.
    - The standard library and the transport are outside the repository.
      What the file calls of them is collected in the class [Env]; every
      theorem is proved for every [Env]. *)

From stdpp Require Import base gmap strings list.
From Equations Require Import Equations.
From Stdlib Require Import ZArith Lia Ascii.

Open Scope Z_scope.

(** ** Errors and bytes *)

Definition GoError := string.
Abbreviation error := (option GoError).
Abbreviation bytes := (list Byte.byte).

(** ** What the file uses of Go's libraries and of the transport *)

(** [net/http]'s response, as far as the file looks at it: the status code
    and the body stream, held here as the bytes the stream would deliver. *)
Record HTTPResponse := {
  StatusCode : Z;
  RespBody : bytes
}.

(** [Response] wraps one transport response: request.go builds it as
    [&Response{res: res}]. *)
Record Response := { res : HTTPResponse }.

Class Env := {
  (** Go values handed over as [interface{}]. *)
  Value : Type;
  (** [context.Context] values. *)
  GoContext : Type;
  (** The state of everything behind the transport (connections, servers). *)
  Net : Type;
  (** [json.NewEncoder(buf).Encode(v)] on an empty buffer: the bytes it
      leaves in the buffer and the error it returns. *)
  jsonEncode : Value -> bytes * error;
  (** [xml.NewEncoder(buf).Encode(v)], likewise. *)
  xmlEncode : Value -> bytes * error;
  (** The error of [http.NewRequest(method, url, body)], which depends on
      the method and the URL only. *)
  newRequestError : string -> string -> error;
  (** The order in which [sync.Map.Range] visits the entries of a map.  Go
      leaves it unspecified; any enumeration of the entries is possible. *)
  rangeOrder : gmap string string -> list (string * string);
  rangeOrder_perm : forall m, rangeOrder m ≡ₚ map_to_list m;
  (** The methods of [Response], declared in a file of the package other
      than request.go: [res.Bytes()], [res.JSON(out)] and [res.XML(out)].
      The decoders receive the current contents of the target and return
      its contents after the call, with the error. *)
  Response_Bytes : Response -> bytes * error;
  Response_JSON : Response -> Value -> Value * error;
  Response_XML : Response -> Value -> Value * error
}.

(** A call either returns or panics.  The terminal methods dereference the
    response that [Do] returns with a nil error; were it nil, Go would
    panic. *)
Inductive Outcome (A : Type) : Type :=
| Returns (a : A)
| Panics.
Arguments Returns {A} a.
Arguments Panics {A}.

Section Httpclient.

Context {E : Env}.

(** [*http.Request], as far as [toHTTPRequest] fills it.  [ReqBody] is what
    reading [req.Body] to the end delivers ([None]: no body); [ReqCtx] is
    [None] for the background context that [http.NewRequest] installs. *)
Record HTTPRequest := {
  Method : string;
  URL : string;
  ReqBody : option bytes;
  Header : gmap string (list string);
  ReqCtx : option (GoContext)
}.

(** [*http.Client]: what [c.Do(req)] answers in a given state of the
    network, and the state it leaves.  By the contract of [http.Client.Do]
    a [nil] error comes with a non-nil response.  The function receives the
    request as materialised; a transport that behaves differently when the
    same request is sent again (its body buffer has been read) is one of
    the functions of this type, since [Net] may record what was sent. *)
Record Client := {
  send : HTTPRequest -> Net -> (GoError + HTTPResponse) * Net
}.

(** The observable state: the network, the log of the requests handed to
    the transport, and the log of the responses whose body was closed.  The
    two logs are ghost state. *)
Record World := {
  net : Net;
  calls : list HTTPRequest;
  closed : list Response
}.

(** [c.Do(r)]: one invocation of the transport. *)
Definition clientDo (c : Client) (r : HTTPRequest) (w : World)
  : (GoError + HTTPResponse) * World :=
  let (out, n) := send c r (net w) in
  (out, {| net := n; calls := calls w ++ [r]; closed := closed w |}).

(** The guard of the retry in [doRetry], with its proof for the
    termination argument. *)
Definition retryGuard (expectedStatus status retryCount : Z)
  : {expectedStatus > 0 /\ status <> expectedStatus /\ retryCount > 0} +
    {~ (expectedStatus > 0 /\ status <> expectedStatus /\ retryCount > 0)}.
Proof.
  destruct (Z_gt_dec expectedStatus 0); [|right; tauto].
  destruct (Z.eq_dec status expectedStatus); [right; tauto|].
  destruct (Z_gt_dec retryCount 0); [left; tauto|right; tauto].
Defined.

(** [doRetry]: send; a transport error is returned at once; a response is
    returned unless an expected status is set, the status differs and
    retries remain, in which case the same request is sent again with one
    retry less. *)
Equations doRetry (c : Client) (r : HTTPRequest) (expectedStatus retryCount : Z)
  (w : World) : (GoError + HTTPResponse) * World
  by wf (Z.to_nat retryCount) lt :=
doRetry c r expectedStatus retryCount w with clientDo c r w := {
  | (inl e, w1) => (inl e, w1)
  | (inr res, w1) with retryGuard expectedStatus (StatusCode res) retryCount := {
    | left _ => doRetry c r expectedStatus (retryCount - 1) w1
    | right _ => (inr res, w1) } }.
Next Obligation.
  lia.
Qed.

(** ** Header names

    [req.Header.Set(key, value)] of [net/http] stores the value under
    [textproto.CanonicalMIMEHeaderKey(key)]: a key made of header-field
    bytes only gets its first letter and every letter after a hyphen in
    upper case and the others in lower case; a key with any other byte
    (a space included) is kept as it is. *)

Definition byteOf (c : ascii) : Z := Z.of_N (Ascii.N_of_ascii c).

Definition isLower (c : ascii) : bool := (97 <=? byteOf c) && (byteOf c <=? 122).
Definition isUpper (c : ascii) : bool := (65 <=? byteOf c) && (byteOf c <=? 90).
Definition isDigit (c : ascii) : bool := (48 <=? byteOf c) && (byteOf c <=? 57).

Definition validHeaderFieldByte (c : ascii) : bool :=
  isDigit c || isLower c || isUpper c ||
  bool_decide (c ∈ ["!"; "#"; "$"; "%"; "&"; "'"; "*"; "+"; "-"; "."; "^";
                    "_"; "`"; "|"; "~"]%char).

Definition toUpperByte (c : ascii) : ascii :=
  if isLower c then Ascii.ascii_of_N (Ascii.N_of_ascii c - 32) else c.
Definition toLowerByte (c : ascii) : ascii :=
  if isUpper c then Ascii.ascii_of_N (Ascii.N_of_ascii c + 32) else c.

Fixpoint allValid (s : string) : bool :=
  match s with
  | EmptyString => true
  | String.String c s' => validHeaderFieldByte c && allValid s'
  end.

Fixpoint canonicalize (upper : bool) (s : string) : string :=
  match s with
  | EmptyString => EmptyString
  | String.String c s' =>
      let c' := if upper then toUpperByte c else toLowerByte c in
      String.String c' (canonicalize (bool_decide (c' = "-"%char)) s')
  end.

Definition CanonicalMIMEHeaderKey (s : string) : string :=
  if allValid s then canonicalize true s else s.

(** [http.Header] is [map[string][]string]. *)
Definition Header_Set (key value : string) (h : gmap string (list string))
  : gmap string (list string) :=
  <[CanonicalMIMEHeaderKey key := [value]]> h.

(** [h.Values(key)]: all the values of the header named [key]. *)
Definition Header_Values (h : gmap string (list string)) (key : string)
  : list string :=
  default [] (h !! CanonicalMIMEHeaderKey key).

(** ** The request builder *)

(** [body]: [None] is the nil [io.ReadWriter]; [Some b] a [*bytes.Buffer]
    whose unread contents are [b].  [header] is the [sync.Map], which holds
    one value per key.  [ctx]: [None] is the nil context. *)
Record Request := {
  err : error;
  client : Client;
  method : string;
  baseURL : string;
  path : string;
  header : gmap string string;
  expectedStatus : Z;
  retryCount : Z;
  body : option bytes;
  ctx : option (GoContext)
}.

Definition Error (r : Request) : error := err r.

(** Assignments to single fields of [*r]. *)
Definition set_err (e : error) (r : Request) : Request :=
  {| err := e; client := client r; method := method r; baseURL := baseURL r;
     path := path r; header := header r; expectedStatus := expectedStatus r;
     retryCount := retryCount r; body := body r; ctx := ctx r |}.
Definition set_header (h : gmap string string) (r : Request) : Request :=
  {| err := err r; client := client r; method := method r; baseURL := baseURL r;
     path := path r; header := h; expectedStatus := expectedStatus r;
     retryCount := retryCount r; body := body r; ctx := ctx r |}.
Definition set_expectedStatus (s : Z) (r : Request) : Request :=
  {| err := err r; client := client r; method := method r; baseURL := baseURL r;
     path := path r; header := header r; expectedStatus := s;
     retryCount := retryCount r; body := body r; ctx := ctx r |}.
Definition set_retryCount (n : Z) (r : Request) : Request :=
  {| err := err r; client := client r; method := method r; baseURL := baseURL r;
     path := path r; header := header r; expectedStatus := expectedStatus r;
     retryCount := n; body := body r; ctx := ctx r |}.
Definition set_body (b : option bytes) (r : Request) : Request :=
  {| err := err r; client := client r; method := method r; baseURL := baseURL r;
     path := path r; header := header r; expectedStatus := expectedStatus r;
     retryCount := retryCount r; body := b; ctx := ctx r |}.
Definition set_ctx (c : option (GoContext)) (r : Request) : Request :=
  {| err := err r; client := client r; method := method r; baseURL := baseURL r;
     path := path r; header := header r; expectedStatus := expectedStatus r;
     retryCount := retryCount r; body := body r; ctx := c |}.

Definition WithBytes (b : bytes) (r : Request) : Request :=
  set_body (Some b) r.

Definition WithString (s : string) (r : Request) : Request :=
  set_body (Some (String.list_byte_of_string s)) r.

Definition WithHeader (key value : string) (r : Request) : Request :=
  set_header (<[key := value]> (header r)) r.

Definition WithContentType (typ : string) (r : Request) : Request :=
  WithHeader "Content-Type" typ r.

Definition WithJSON (v : Value) (r : Request) : Request :=
  let r := WithContentType "application/json" r in
  let r := set_body (Some []) r in
  let (written, e) := jsonEncode v in
  set_err e (set_body (Some written) r).

Definition WithXML (v : Value) (r : Request) : Request :=
  let r := WithContentType "application/xml" r in
  let r := set_body (Some []) r in
  let (written, e) := xmlEncode v in
  set_err e (set_body (Some written) r).

Definition WithContext (c : option (GoContext)) (r : Request) : Request :=
  set_ctx c r.

Definition WithExpectedStatus (expectedStatusCode : Z) (r : Request) : Request :=
  set_expectedStatus expectedStatusCode r.

Definition WithRetry (n : Z) (r : Request) : Request :=
  set_retryCount n r.

(** ** Materialisation and execution *)

Definition set_Header (h : gmap string (list string)) (q : HTTPRequest)
  : HTTPRequest :=
  {| Method := Method q; URL := URL q; ReqBody := ReqBody q; Header := h;
     ReqCtx := ReqCtx q |}.
Definition set_ReqCtx (c : option (GoContext)) (q : HTTPRequest)
  : HTTPRequest :=
  {| Method := Method q; URL := URL q; ReqBody := ReqBody q;
     Header := Header q; ReqCtx := c |}.

(** [http.NewRequest(method, url, body)]: an empty method means GET, the
    header map is fresh, the body is the reader it was given. *)
Definition NewRequest (method url : string) (body : option bytes)
  : GoError + HTTPRequest :=
  match newRequestError method url with
  | Some e => inl e
  | None =>
      inr {| Method := if bool_decide (method = "") then "GET" else method;
             URL := url; ReqBody := body; Header := ∅; ReqCtx := None |}
  end.

Definition toHTTPRequest (r : Request) : GoError + HTTPRequest :=
  match NewRequest (method r) (baseURL r +:+ path r) (body r) with
  | inl e => inl e
  | inr req =>
      let req := match ctx r with
                 | Some c => set_ReqCtx (Some c) req
                 | None => req
                 end in
      inr (foldl (fun q kv => set_Header (Header_Set kv.1 kv.2 (Header q)) q)
                 req (rangeOrder (header r)))
  end.

(** [Do] returns Go's pair of a [*Response] and an [error]. *)
Definition Do (r : Request) (w : World) : (option Response * error) * World :=
  match err r with
  | Some e => ((None, Some e), w)
  | None =>
      match toHTTPRequest r with
      | inl e => ((None, Some e), w)
      | inr req =>
          match doRetry (client r) req (expectedStatus r) (retryCount r) w with
          | (inl e, w1) => ((None, Some e), w1)
          | (inr res, w1) => ((Some {| res := res |}, None), w1)
          end
      end
  end.

(** Modelled from the spec: [Response.StatusCode], declared outside
    request.go, "returns the stored status code; pure accessor, no side
    effect". *)
Definition Response_StatusCode (x : Response) : Z := StatusCode (res x).

(** Modelled from the spec: [Response.Close], declared outside request.go,
    "releases the underlying stream resource".  The release is recorded in
    the log [closed]. *)
Definition Response_Close (x : Response) (w : World) : World :=
  {| net := net w; calls := calls w; closed := closed w ++ [x] |}.

(** After [res, err := r.Do()] and the test [err != nil], run [k] on the
    response and then the deferred [res.Close()]. *)
Definition withResponse {A : Type} (r : Request) (w : World)
  (onError : GoError -> A) (k : Response -> A) : Outcome A * World :=
  match Do r w with
  | ((_, Some e), w1) => (Returns (onError e), w1)
  | ((Some x, None), w1) => (Returns (k x), Response_Close x w1)
  | ((None, None), w1) => (Panics, w1)
  end.

Definition Bytes (r : Request) (w : World) : Outcome (bytes * error) * World :=
  withResponse r w (fun e => ([], Some e)) (fun x => Response_Bytes x).

Definition String (r : Request) (w : World) : Outcome (string * error) * World :=
  match Bytes r w with
  | (Returns (_, Some e), w1) => (Returns ("", Some e), w1)
  | (Returns (b, None), w1) => (Returns (String.string_of_list_byte b, None), w1)
  | (Panics, w1) => (Panics, w1)
  end.

(** [JSON(out)]: the error, and the contents of [out] after the call. *)
Definition JSON (out : Value) (r : Request) (w : World)
  : Outcome (error * Value) * World :=
  withResponse r w (fun e => (Some e, out))
    (fun x => let (out', e) := Response_JSON x out in (e, out')).

Definition XML (out : Value) (r : Request) (w : World)
  : Outcome (error * Value) * World :=
  withResponse r w (fun e => (Some e, out))
    (fun x => let (out', e) := Response_XML x out in (e, out')).

(** [JSONWithError(out, errOut)]: the pair [(bool, error)], and the
    contents of [out] and of [errOut] after the call.  [out] and [errOut]
    are taken to be distinct objects. *)
Definition JSONWithError (out errOut : Value) (r : Request) (w : World)
  : Outcome ((bool * error) * (Value * Value)) * World :=
  withResponse r w (fun e => ((false, Some e), (out, errOut)))
    (fun x =>
       if bool_decide (expectedStatus r > 0) &&
          negb (bool_decide (Response_StatusCode x = expectedStatus r))
       then let (errOut', e) := Response_JSON x errOut in
            ((false, e), (out, errOut'))
       else let (out', e) := Response_JSON x out in
            ((true, e), (out', errOut))).

Definition XMLWithError (out errOut : Value) (r : Request) (w : World)
  : Outcome ((bool * error) * (Value * Value)) * World :=
  withResponse r w (fun e => ((false, Some e), (out, errOut)))
    (fun x =>
       if bool_decide (expectedStatus r > 0) &&
          negb (bool_decide (Response_StatusCode x = expectedStatus r))
       then let (errOut', e) := Response_XML x errOut in
            ((false, e), (out, errOut'))
       else let (out', e) := Response_XML x out in
            ((true, e), (out', errOut))).

End Httpclient.

(** ** Vocabulary of the statements *)

Section Statements.

Context {E : Env}.

(** The state of the world after the transport was handed the request [k]
    times in a row, and what it answered at the [k]-th of these attempts
    (counted from 1). *)
Fixpoint stateAfter (c : Client) (r : HTTPRequest) (k : nat) (w : World) : World :=
  match k with
  | O => w
  | S k' => stateAfter c r k' (clientDo c r w).2
  end.

Definition attempt (c : Client) (r : HTTPRequest) (k : nat) (w : World)
  : GoError + HTTPResponse :=
  (clientDo c r (stateAfter c r (pred k) w)).1.

(** The attempt [k] answers with a response whose status is not [s]. *)
Definition mismatch (c : Client) (r : HTTPRequest) (s : Z) (k : nat) (w : World)
  : Prop :=
  exists x, attempt c r k w = inr x /\ StatusCode x <> s.

(** The headers that the [Range] loop leaves, as a function of the
    enumeration of the store. *)
Definition applyHeaders (h : gmap string (list string))
  (l : list (string * string)) : gmap string (list string) :=
  foldl (fun h kv => Header_Set kv.1 kv.2 h) h l.

(** [io.ReadAll(req.Body)] on the materialised request. *)
Definition readAll (q : HTTPRequest) : bytes := default [] (ReqBody q).

(** The fields of a [Request] other than [body], [header], [ctx],
    [expectedStatus] and [retryCount], and equality of two requests on
    every field but one. *)
Definition sameIdentity (r r' : Request) : Prop :=
  err r' = err r /\ client r' = client r /\ method r' = method r /\
  baseURL r' = baseURL r /\ path r' = path r.

Definition onlyBody (r r' : Request) : Prop :=
  sameIdentity r r' /\ header r' = header r /\ ctx r' = ctx r /\
  expectedStatus r' = expectedStatus r /\ retryCount r' = retryCount r.

Definition onlyHeader (r r' : Request) : Prop :=
  sameIdentity r r' /\ body r' = body r /\ ctx r' = ctx r /\
  expectedStatus r' = expectedStatus r /\ retryCount r' = retryCount r.

Definition onlyCtx (r r' : Request) : Prop :=
  sameIdentity r r' /\ body r' = body r /\ header r' = header r /\
  expectedStatus r' = expectedStatus r /\ retryCount r' = retryCount r.

Definition onlyExpectedStatus (r r' : Request) : Prop :=
  sameIdentity r r' /\ body r' = body r /\ header r' = header r /\
  ctx r' = ctx r /\ retryCount r' = retryCount r.

Definition onlyRetryCount (r r' : Request) : Prop :=
  sameIdentity r r' /\ body r' = body r /\ header r' = header r /\
  ctx r' = ctx r /\ expectedStatus r' = expectedStatus r.

End Statements.

(** ** Concrete environments

    A transport that serves a fixed list of status codes, one per request,
    and reports a connection failure once the list is used up.  Values are
    booleans; the encoders accept [true] and refuse [false]. *)

Definition script : list Z := [500; 500; 201].

Definition scriptedEnv (order : gmap string string -> list (string * string))
  (Horder : forall m, order m ≡ₚ map_to_list m) : Env :=
  {| Value := bool;
     GoContext := unit;
     Net := nat;
     jsonEncode := fun v : bool =>
       if v then (String.list_byte_of_string "true", None)
       else ([], Some "json: unsupported value");
     xmlEncode := fun v : bool =>
       if v then (String.list_byte_of_string "<bool>true</bool>", None)
       else ([], Some "xml: unsupported value");
     newRequestError := fun m u =>
       if bool_decide (u = "") then Some "empty url" else None;
     rangeOrder := order;
     rangeOrder_perm := Horder;
     Response_Bytes := fun x => (RespBody (res x), None);
     Response_JSON := fun x old =>
       if bool_decide (String.string_of_list_byte (RespBody (res x)) = "true")
       then (true, None) else (old, Some "json: cannot decode");
     Response_XML := fun x old =>
       if bool_decide (String.string_of_list_byte (RespBody (res x)) = "true")
       then (true, None) else (old, Some "xml: cannot decode") |}.

Definition inOrder : Env := scriptedEnv map_to_list (fun m => reflexivity _).

Definition reversed : Env :=
  scriptedEnv (fun m => reverse (map_to_list m))
              (fun m => reverse_Permutation (map_to_list m)).

Definition scriptedClient (E : Env) (served : @Net E -> nat) (next : @Net E -> @Net E)
  : @Client E :=
  {| send := fun _ n =>
       match script !! served n with
       | Some s => (inr {| StatusCode := s;
                           RespBody := String.list_byte_of_string "true" |},
                    next n)
       | None => (inl "connection refused", next n)
       end |}.

Definition demoClient : @Client inOrder := scriptedClient inOrder id S.

Definition demoRequest : @Request inOrder :=
  @Build_Request inOrder None demoClient "POST" "https://api.example.com"
    "/widgets" ∅ 0 0 None None.

Definition demoWorld (n : nat) : @World inOrder := @Build_World inOrder n [] [].

Definition demoHTTPRequest : @HTTPRequest inOrder :=
  @Build_HTTPRequest inOrder "POST" "https://api.example.com/widgets" None ∅ None.

(** A request that already carries the header [x], in the environment
    whose [Range] enumerates the other way round. *)
Definition lowerCaseRequest : @Request reversed :=
  WithHeader "x" "c"
    (@Build_Request reversed None (scriptedClient reversed id S) "GET"
       "https://api.example.com" "/widgets" ∅ 0 0 None None).

(** A request whose JSON body could not be encoded, and the same request
    after a second, successful [WithJSON]. *)
Definition failedRequest : @Request inOrder := WithJSON (E:=inOrder) false demoRequest.
Definition repairedRequest : @Request inOrder := WithJSON (E:=inOrder) true failedRequest.

(** What the first send of the script answers. *)
Definition firstAnswer : Response :=
  {| res := {| StatusCode := 500;
               RespBody := String.list_byte_of_string "true" |} |}.

(** * Properties *)

Section RetryExecutor.

Context {E : Env}.

(** ** One step of [doRetry] *)

Lemma doRetry_step (c : Client) (r : HTTPRequest) (s n : Z) (w : World) :
  doRetry c r s n w =
  match clientDo c r w with
  | (inl e, w1) => (inl e, w1)
  | (inr x, w1) =>
      if retryGuard s (StatusCode x) n then doRetry c r s (n - 1) w1
      else (inr x, w1)
  end.
Proof.
  rewrite doRetry_equation_1.
  destruct (clientDo c r w) as [[e|x] w1]; simpl; [reflexivity|].
  destruct (retryGuard s (StatusCode x) n); reflexivity.
Qed.

Lemma clientDo_calls (c : Client) (r : HTTPRequest) (w : World) :
  calls (clientDo c r w).2 = calls w ++ [r].
Proof. unfold clientDo. destruct (send c r (net w)). reflexivity. Qed.

Lemma clientDo_closed (c : Client) (r : HTTPRequest) (w : World) :
  closed (clientDo c r w).2 = closed w.
Proof. unfold clientDo. destruct (send c r (net w)). reflexivity. Qed.

Lemma stateAfter_calls (c : Client) (r : HTTPRequest) (k : nat) (w : World) :
  calls (stateAfter c r k w) = calls w ++ replicate k r.
Proof.
  revert w. induction k as [|k IH]; intros w; simpl.
  - by rewrite app_nil_r.
  - rewrite IH, clientDo_calls, <- app_assoc. reflexivity.
Qed.

(** ** Where the recursion stops

    If the attempts before the [k]-th answer with a status other than the
    expected one, and the [k]-th answers with a response that either has
    the expected status or uses up the last retry, [doRetry] returns that
    response in the state reached after [k] sends. *)
Lemma doRetry_stops_at (c : Client) (r : HTTPRequest) (s : Z) (k : nat) :
  forall (n : Z) (w : World) (x : HTTPResponse),
    s > 0 -> (1 <= k)%nat -> Z.of_nat k <= n + 1 ->
    (forall j, (1 <= j < k)%nat -> mismatch c r s j w) ->
    attempt c r k w = inr x ->
    StatusCode x = s \/ Z.of_nat k = n + 1 ->
    doRetry c r s n w = (inr x, stateAfter c r k w).
Proof.
  induction k as [|k IH]; intros n w x Hs Hk Hn Hbefore Hat Hlast; [lia|].
  rewrite doRetry_step.
  destruct k as [|k].
  - (* the first attempt is the one that stops *)
    unfold attempt in Hat. simpl in *.
    destruct (clientDo c r w) as [[e|y] w1]; simpl in *; [discriminate|].
    injection Hat as ->.
    destruct (retryGuard s (StatusCode x) n) as [G|G]; [|reflexivity].
    exfalso. destruct Hlast; lia.
  - (* the first attempt is a mismatch, and a retry remains *)
    destruct (Hbefore 1%nat ltac:(lia)) as (y & Hy & Hne).
    unfold attempt in Hy. simpl in Hy.
    change (stateAfter c r (S (S k)) w)
      with (stateAfter c r (S k) (clientDo c r w).2).
    destruct (clientDo c r w) as [[e|y'] w1] eqn:Hdo; simpl in *; [discriminate|].
    injection Hy as ->.
    destruct (retryGuard s (StatusCode y) n) as [G|G]; [|exfalso; lia].
    apply IH; try lia.
    + intros j Hj. destruct (Hbefore (S j) ltac:(lia)) as (z & Hz & Hzne).
      exists z. split; [|exact Hzne].
      unfold attempt in *. destruct j as [|j]; [lia|].
      simpl in *. rewrite Hdo in Hz. exact Hz.
    + unfold attempt in *. simpl in *. rewrite Hdo in Hat. exact Hat.
Qed.

(** C2.  With an expected status [s > 0] and a retry count [n >= 0]: if
    every one of the first [n+1] attempts answers with a status other than
    [s], [doRetry] hands the request to the transport exactly [n+1] times
    and returns the response of the last attempt; if the attempt [k], with
    [k <= n+1], is the first to answer with status [s], the transport is
    invoked exactly [k] times and the response of that attempt is
    returned. *)
Theorem doRetry_invocations (c : Client) (r : HTTPRequest) (s n : Z) (w : World) :
  s > 0 -> n >= 0 ->
  ((forall k, (1 <= k <= Z.to_nat n + 1)%nat -> mismatch c r s k w) ->
   exists x w1,
     doRetry c r s n w = (inr x, w1) /\
     attempt c r (Z.to_nat n + 1) w = inr x /\
     StatusCode x <> s /\
     calls w1 = calls w ++ replicate (Z.to_nat n + 1) r)
  /\
  (forall k x,
     (1 <= k <= Z.to_nat n + 1)%nat ->
     (forall j, (1 <= j < k)%nat -> mismatch c r s j w) ->
     attempt c r k w = inr x -> StatusCode x = s ->
     exists w1,
       doRetry c r s n w = (inr x, w1) /\
       calls w1 = calls w ++ replicate k r).
Proof.
  intros Hs Hn. split.
  - intros Hall.
    destruct (Hall (Z.to_nat n + 1)%nat ltac:(lia)) as (x & Hx & Hne).
    exists x, (stateAfter c r (Z.to_nat n + 1) w).
    split; [|split; [exact Hx|split; [exact Hne|apply stateAfter_calls]]].
    apply doRetry_stops_at; try lia; [|exact Hx].
    intros j Hj. apply Hall. lia.
  - intros k x Hk Hbefore Hx Hmatch.
    exists (stateAfter c r k w). split; [|apply stateAfter_calls].
    apply doRetry_stops_at; try lia; assumption.
Qed.


(** Without an expected status [doRetry] is a single send. *)
Lemma doRetry_no_expected_status (c : Client) (r : HTTPRequest) (s n : Z)
  (w : World) :
  s <= 0 -> doRetry c r s n w = clientDo c r w.
Proof.
  intros Hs. rewrite doRetry_step.
  destruct (clientDo c r w) as [[e|x] w1]; [reflexivity|].
  destruct (retryGuard s (StatusCode x) n) as [G|G]; [lia|reflexivity].
Qed.

(** [doRetry] never touches the log of closed responses. *)
Lemma doRetry_closed (c : Client) (r : HTTPRequest) (s n : Z) (w : World) :
  closed (doRetry c r s n w).2 = closed w.
Proof.
  remember (Z.to_nat n) as m eqn:Hm. revert n w Hm.
  induction m as [|m IH]; intros n w Hm; rewrite doRetry_step;
    pose proof (clientDo_closed c r w) as Hc;
    destruct (clientDo c r w) as [[e|x] w1]; simpl in *; try exact Hc;
    destruct (retryGuard s (StatusCode x) n) as [G|G]; simpl; try exact Hc.
  - lia.
  - rewrite (IH (n - 1) w1 ltac:(lia)). exact Hc.
Qed.

End RetryExecutor.

(** The scenario of three sends answered 500, 500, 201: with expected
    status 201 and one retry both attempts mismatch and two sends happen;
    with two retries the third attempt matches and three sends happen. *)
Lemma doRetry_invocations_witness :
  (exists x w1,
     doRetry demoClient demoHTTPRequest 201 1 (demoWorld 0) = (inr x, w1) /\
     attempt demoClient demoHTTPRequest (Z.to_nat 1 + 1) (demoWorld 0) = inr x /\
     StatusCode x <> 201 /\
     calls w1 = calls (demoWorld 0) ++ replicate (Z.to_nat 1 + 1) demoHTTPRequest)
  /\
  (exists w1,
     doRetry demoClient demoHTTPRequest 201 2 (demoWorld 0) =
       (inr {| StatusCode := 201; RespBody := String.list_byte_of_string "true" |}, w1) /\
     calls w1 = calls (demoWorld 0) ++ replicate 3 demoHTTPRequest).
Proof.
  split.
  - apply (doRetry_invocations demoClient demoHTTPRequest 201 1 (demoWorld 0));
      [lia|lia|].
    intros k Hk. assert (k = 1 \/ k = 2)%nat as [->| ->] by lia.
    + eexists. split; [vm_compute; reflexivity|vm_compute; discriminate].
    + eexists. split; [vm_compute; reflexivity|vm_compute; discriminate].
  - apply (doRetry_invocations demoClient demoHTTPRequest 201 2 (demoWorld 0));
      [lia|lia|simpl; lia| |vm_compute; reflexivity|reflexivity].
    intros j Hj. assert (j = 1 \/ j = 2)%nat as [->| ->] by lia.
    + eexists. split; [vm_compute; reflexivity|vm_compute; discriminate].
    + eexists. split; [vm_compute; reflexivity|vm_compute; discriminate].
Defined.


Section Builder.

Context {E : Env}.

(** ** Configuration calls and the deferred error *)

(** The two encoders assign [r.err] whatever it held. *)
Lemma WithJSON_err (v : Value) (r : Request) :
  err (WithJSON v r) = (jsonEncode v).2.
Proof. unfold WithJSON. destruct (jsonEncode v). reflexivity. Qed.

Lemma WithXML_err (v : Value) (r : Request) :
  err (WithXML v r) = (xmlEncode v).2.
Proof. unfold WithXML. destruct (xmlEncode v). reflexivity. Qed.

(** C10.  [WithBytes], [WithString], [WithHeader], [WithContentType],
    [WithContext], [WithExpectedStatus] and [WithRetry] neither read nor
    write the deferred error: each of them commutes with an assignment of
    any error to [r.err], leaves [r.err] as it was, and changes no field
    but its own ([body], [header], [ctx], [expectedStatus], [retryCount]);
    in the header store only the entry of the given key changes. *)
Theorem configuration_frame (r : Request) :
  (forall b e, WithBytes b (set_err e r) = set_err e (WithBytes b r)) /\
  (forall s e, WithString s (set_err e r) = set_err e (WithString s r)) /\
  (forall k v e, WithHeader k v (set_err e r) = set_err e (WithHeader k v r)) /\
  (forall t e, WithContentType t (set_err e r) = set_err e (WithContentType t r)) /\
  (forall c e, WithContext c (set_err e r) = set_err e (WithContext c r)) /\
  (forall s e, WithExpectedStatus s (set_err e r) =
               set_err e (WithExpectedStatus s r)) /\
  (forall n e, WithRetry n (set_err e r) = set_err e (WithRetry n r)) /\
  (forall b, onlyBody r (WithBytes b r) /\ body (WithBytes b r) = Some b) /\
  (forall s, onlyBody r (WithString s r) /\
             body (WithString s r) = Some (String.list_byte_of_string s)) /\
  (forall k v, onlyHeader r (WithHeader k v r) /\
               header (WithHeader k v r) !! k = Some v /\
               forall k', k' <> k ->
                 header (WithHeader k v r) !! k' = header r !! k') /\
  (forall t, onlyHeader r (WithContentType t r) /\
             header (WithContentType t r) !! "Content-Type" = Some t /\
             forall k', k' <> "Content-Type" ->
               header (WithContentType t r) !! k' = header r !! k') /\
  (forall c, onlyCtx r (WithContext c r) /\ ctx (WithContext c r) = c) /\
  (forall s, onlyExpectedStatus r (WithExpectedStatus s r) /\
             expectedStatus (WithExpectedStatus s r) = s) /\
  (forall n, onlyRetryCount r (WithRetry n r) /\
             retryCount (WithRetry n r) = n).
Proof.
  repeat split; simpl; try reflexivity.
  - apply lookup_insert_eq.
  - intros k' Hk'. apply lookup_insert_ne. congruence.
  - apply lookup_insert_eq.
  - intros k' Hk'. apply lookup_insert_ne. congruence.
Qed.

(** ** Execution with a deferred error *)

Lemma Do_deferred (r : Request) (w : World) (e : GoError) :
  err r = Some e -> Do r w = ((None, Some e), w).
Proof. intros He. unfold Do. rewrite He. reflexivity. Qed.

(** With a deferred error on the request every terminal method returns
    it and leaves its targets and the world as they were. *)
Lemma deferred_short_circuit (r : Request) (e : GoError) (w : World)
  (out errOut : Value) :
  err r = Some e ->
  Do r w = ((None, Some e), w) /\
  Bytes r w = (Returns ([], Some e), w) /\
  String r w = (Returns (""%string, Some e), w) /\
  JSON out r w = (Returns (Some e, out), w) /\
  XML out r w = (Returns (Some e, out), w) /\
  JSONWithError out errOut r w = (Returns ((false, Some e), (out, errOut)), w) /\
  XMLWithError out errOut r w = (Returns ((false, Some e), (out, errOut)), w).
Proof.
  intros He. pose proof (Do_deferred r w e He) as HDo.
  unfold String, Bytes, JSON, XML, JSONWithError, XMLWithError, withResponse.
  rewrite HDo. repeat split; reflexivity.
Qed.

(** C1 (as the code has it).  Once the deferred error is set, the seven
    configuration calls that do not encode preserve it, [WithJSON] and
    [WithXML] replace it by the result of their own encoding (which is nil
    when the encoding succeeds), and a terminal execution fails at once
    with the error stored at that time, leaving the world as it was. *)
Theorem deferred_error_flow (r : Request) (e : GoError) (w : World)
  (out errOut : Value) :
  err r = Some e ->
  (forall b, Error (WithBytes b r) = Some e) /\
  (forall s, Error (WithString s r) = Some e) /\
  (forall k v, Error (WithHeader k v r) = Some e) /\
  (forall t, Error (WithContentType t r) = Some e) /\
  (forall c, Error (WithContext c r) = Some e) /\
  (forall s, Error (WithExpectedStatus s r) = Some e) /\
  (forall n, Error (WithRetry n r) = Some e) /\
  (forall v, Error (WithJSON v r) = (jsonEncode v).2) /\
  (forall v, Error (WithXML v r) = (xmlEncode v).2) /\
  Do r w = ((None, Some e), w) /\
  Bytes r w = (Returns ([], Some e), w) /\
  String r w = (Returns (""%string, Some e), w) /\
  JSON out r w = (Returns (Some e, out), w) /\
  XML out r w = (Returns (Some e, out), w) /\
  JSONWithError out errOut r w = (Returns ((false, Some e), (out, errOut)), w) /\
  XMLWithError out errOut r w = (Returns ((false, Some e), (out, errOut)), w).
Proof.
  intros He. unfold Error.
  repeat (split; [intros; simpl; first [exact He|apply WithJSON_err|apply WithXML_err]|]).
  apply deferred_short_circuit, He.
Qed.

(** C3.  With a deferred error on the request every terminal method
    returns that error, leaves its targets untouched, and leaves the world
    as it was: the transport is not invoked and nothing is closed. *)
Theorem terminal_deferred_error (r : Request) (e : GoError) (w : World)
  (out errOut : Value) :
  err r = Some e ->
  Do r w = ((None, Some e), w) /\
  Bytes r w = (Returns ([], Some e), w) /\
  String r w = (Returns (""%string, Some e), w) /\
  JSON out r w = (Returns (Some e, out), w) /\
  XML out r w = (Returns (Some e, out), w) /\
  JSONWithError out errOut r w = (Returns ((false, Some e), (out, errOut)), w) /\
  XMLWithError out errOut r w = (Returns ((false, Some e), (out, errOut)), w).
Proof. apply deferred_short_circuit. Qed.

(** C8.  [Do] returns either a nil response with an error, or a response
    with a nil error; in the second case the request was materialised and
    the response wraps what [doRetry] returned for it. *)
Theorem Do_response_xor_error (r : Request) (w : World) :
  match Do r w with
  | ((None, Some _), _) => True
  | ((Some x, None), w1) =>
      exists req tr,
        err r = None /\
        toHTTPRequest r = inr req /\
        doRetry (client r) req (expectedStatus r) (retryCount r) w = (inr tr, w1) /\
        x = {| res := tr |}
  | ((Some _, Some _), _) => False
  | ((None, None), _) => False
  end.
Proof.
  unfold Do. destruct (err r) as [e|]; [exact I|].
  destruct (toHTTPRequest r) as [e|req]; [exact I|].
  destruct (doRetry (client r) req (expectedStatus r) (retryCount r) w)
    as [[e|tr] w1] eqn:Hretry; [exact I|].
  exists req, tr. repeat split; try reflexivity. exact Hretry.
Qed.

(** The terminal methods never dereference a nil response. *)
Lemma withResponse_returns {A : Type} (r : Request) (w : World)
  (onError : GoError -> A) (k : Response -> A) :
  (withResponse r w onError k).1 <> Panics.
Proof.
  unfold withResponse, Do. destruct (err r) as [e|]; [discriminate|].
  destruct (toHTTPRequest r) as [e|req]; [discriminate|].
  destruct (doRetry (client r) req (expectedStatus r) (retryCount r) w)
    as [[e|tr] w1]; discriminate.
Qed.

(** ** Decoding with an error shape *)

(** C5.  With an expected status configured, when [Do] returns a response:
    if its status is the expected one, [JSONWithError] returns [true] with
    the error of decoding into [out], and [errOut] is as before; otherwise
    it returns [false] with the error of decoding into [errOut], and [out]
    is as before.  [XMLWithError] does the same with the XML decoder.  The
    response is closed afterwards. *)
Theorem WithError_contract (r : Request) (w w1 : World) (x : Response)
  (out errOut : Value) :
  expectedStatus r > 0 ->
  Do r w = ((Some x, None), w1) ->
  (Response_StatusCode x = expectedStatus r ->
     JSONWithError out errOut r w =
       (Returns ((true, (Response_JSON x out).2),
                 ((Response_JSON x out).1, errOut)), Response_Close x w1) /\
     XMLWithError out errOut r w =
       (Returns ((true, (Response_XML x out).2),
                 ((Response_XML x out).1, errOut)), Response_Close x w1)) /\
  (Response_StatusCode x <> expectedStatus r ->
     JSONWithError out errOut r w =
       (Returns ((false, (Response_JSON x errOut).2),
                 (out, (Response_JSON x errOut).1)), Response_Close x w1) /\
     XMLWithError out errOut r w =
       (Returns ((false, (Response_XML x errOut).2),
                 (out, (Response_XML x errOut).1)), Response_Close x w1)).
Proof.
  intros Hs HDo. unfold JSONWithError, XMLWithError, withResponse.
  rewrite HDo. split; intros Hst.
  - rewrite (bool_decide_eq_true_2 _ Hst), andb_false_r.
    destruct (Response_JSON x out), (Response_XML x out). split; reflexivity.
  - rewrite (bool_decide_eq_true_2 _ Hs), (bool_decide_eq_false_2 _ Hst).
    destruct (Response_JSON x errOut), (Response_XML x errOut).
    split; reflexivity.
Qed.

(** C9.  Without an expected status (zero or negative), whatever the
    status of the response that [Do] returns, [JSONWithError] and
    [XMLWithError] return [true] with the error of decoding into [out] and
    leave [errOut] as it was; and [doRetry] is one single send, whatever
    the retry count. *)
Theorem no_expected_status (r : Request) (out errOut : Value) :
  expectedStatus r <= 0 ->
  (forall w w1 x,
     Do r w = ((Some x, None), w1) ->
     JSONWithError out errOut r w =
       (Returns ((true, (Response_JSON x out).2),
                 ((Response_JSON x out).1, errOut)), Response_Close x w1) /\
     XMLWithError out errOut r w =
       (Returns ((true, (Response_XML x out).2),
                 ((Response_XML x out).1, errOut)), Response_Close x w1)) /\
  (forall c req n w,
     doRetry c req (expectedStatus r) n w = clientDo c req w /\
     calls (doRetry c req (expectedStatus r) n w).2 = calls w ++ [req]).
Proof.
  intros Hs. split.
  - intros w w1 x HDo. unfold JSONWithError, XMLWithError, withResponse.
    rewrite HDo.
    rewrite (bool_decide_eq_false_2 (expectedStatus r > 0)) by lia. simpl.
    destruct (Response_JSON x out), (Response_XML x out). split; reflexivity.
  - intros c req n w.
    rewrite (doRetry_no_expected_status c req _ n w Hs).
    split; [reflexivity|apply clientDo_calls].
Qed.

End Builder.

Section Materialisation.

Context {E : Env}.

(** ** What [toHTTPRequest] builds *)

Lemma range_loop (l : list (string * string)) (q : HTTPRequest) :
  foldl (fun q kv => set_Header (Header_Set kv.1 kv.2 (Header q)) q) q l =
  set_Header (applyHeaders (Header q) l) q.
Proof.
  revert q. induction l as [|kv l IH]; intros q; simpl.
  - destruct q; reflexivity.
  - rewrite IH. reflexivity.
Qed.

Lemma toHTTPRequest_inv (r : Request) (req : HTTPRequest) :
  toHTTPRequest r = inr req ->
  newRequestError (method r) (baseURL r +:+ path r) = None /\
  URL req = baseURL r +:+ path r /\
  ReqBody req = body r /\
  ReqCtx req = ctx r /\
  Header req = applyHeaders ∅ (rangeOrder (header r)).
Proof.
  unfold toHTTPRequest, NewRequest.
  destruct (newRequestError (method r) (baseURL r +:+ path r)); [discriminate|].
  rewrite range_loop. intros [= <-].
  destruct (ctx r); repeat split; reflexivity.
Qed.

Lemma toHTTPRequest_total (r : Request) :
  newRequestError (method r) (baseURL r +:+ path r) = None ->
  exists req, toHTTPRequest r = inr req.
Proof.
  intros H. unfold toHTTPRequest, NewRequest. rewrite H. eauto.
Qed.

(** C6.  After [WithBytes(b)], respectively [WithString(s)], the body of
    the materialised request read to the end is [b], respectively the bytes
    of [s]. *)
Theorem body_round_trip (r : Request) (b : bytes) (s : string)
  (req : HTTPRequest) :
  (toHTTPRequest (WithBytes b r) = inr req -> readAll req = b) /\
  (toHTTPRequest (WithString s r) = inr req ->
   readAll req = String.list_byte_of_string s).
Proof.
  split; intros H; apply toHTTPRequest_inv in H as (_ & _ & Hb & _);
    unfold readAll; rewrite Hb; reflexivity.
Qed.

(** ** Canonical header names *)

Lemma toUpperByte_valid (c : ascii) :
  validHeaderFieldByte c = true -> validHeaderFieldByte (toUpperByte c) = true.
Proof. destruct c as [[] [] [] [] [] [] [] []]; vm_compute; congruence. Qed.

Lemma toLowerByte_valid (c : ascii) :
  validHeaderFieldByte c = true -> validHeaderFieldByte (toLowerByte c) = true.
Proof. destruct c as [[] [] [] [] [] [] [] []]; vm_compute; congruence. Qed.

Lemma toUpperByte_idem (c : ascii) :
  validHeaderFieldByte c = true -> toUpperByte (toUpperByte c) = toUpperByte c.
Proof. destruct c as [[] [] [] [] [] [] [] []]; vm_compute; congruence. Qed.

Lemma toLowerByte_idem (c : ascii) :
  validHeaderFieldByte c = true -> toLowerByte (toLowerByte c) = toLowerByte c.
Proof. destruct c as [[] [] [] [] [] [] [] []]; vm_compute; congruence. Qed.

Lemma canonicalize_valid (s : string) :
  forall upper, allValid s = true -> allValid (canonicalize upper s) = true.
Proof.
  induction s as [|c s IH]; intros upper H; simpl in *; [reflexivity|].
  apply andb_true_iff in H as [Hc Hs].
  apply andb_true_iff. split; [|apply IH, Hs].
  destruct upper; [apply toUpperByte_valid|apply toLowerByte_valid]; exact Hc.
Qed.

Lemma canonicalize_idem (s : string) :
  forall upper, allValid s = true ->
    canonicalize upper (canonicalize upper s) = canonicalize upper s.
Proof.
  induction s as [|c s IH]; intros upper H; simpl in *; [reflexivity|].
  apply andb_true_iff in H as [Hc Hs].
  destruct upper.
  - rewrite (toUpperByte_idem c Hc), (IH _ Hs). reflexivity.
  - rewrite (toLowerByte_idem c Hc), (IH _ Hs). reflexivity.
Qed.

Lemma CanonicalMIMEHeaderKey_idem (s : string) :
  CanonicalMIMEHeaderKey (CanonicalMIMEHeaderKey s) = CanonicalMIMEHeaderKey s.
Proof.
  unfold CanonicalMIMEHeaderKey.
  destruct (allValid s) eqn:Hs; [|rewrite Hs; reflexivity].
  rewrite (canonicalize_valid s true Hs). apply canonicalize_idem, Hs.
Qed.

(** ** The header map after the [Range] loop *)

(** A name ends with the value [b] if the enumeration holds an entry that
    canonicalises to it and every such entry carries [b]. *)
Lemma applyHeaders_lookup (l : list (string * string))
  (h : gmap string (list string)) (name b : string) :
  (exists k, (k, b) ∈ l /\ CanonicalMIMEHeaderKey k = name) ->
  (forall k v, (k, v) ∈ l -> CanonicalMIMEHeaderKey k = name -> v = b) ->
  applyHeaders h l !! name = Some [b].
Proof.
  unfold applyHeaders.
  induction l as [|[k v] l IH] using rev_ind; intros (k0 & Hin & Hk0) Hall.
  - by apply elem_of_nil in Hin.
  - rewrite foldl_app. simpl. unfold Header_Set at 1.
    destruct (decide (CanonicalMIMEHeaderKey k = name)) as [Heq|Hne].
    + rewrite Heq, lookup_insert_eq.
      rewrite (Hall k v); [reflexivity| |exact Heq].
      apply elem_of_app. right. by apply list_elem_of_singleton.
    + rewrite lookup_insert_ne by exact Hne.
      apply IH.
      * exists k0. split; [|exact Hk0].
        apply elem_of_app in Hin as [Hin|Hin]; [exact Hin|].
        apply list_elem_of_singleton in Hin. congruence.
      * intros k' v' Hin' Hk'. apply (Hall k' v'); [|exact Hk'].
        apply elem_of_app. by left.
Qed.

(** Every name of the map comes from an entry of the enumeration. *)
Lemma applyHeaders_names (l : list (string * string)) (name : string)
  (vs : list string) :
  applyHeaders ∅ l !! name = Some vs ->
  exists k v, (k, v) ∈ l /\ name = CanonicalMIMEHeaderKey k /\ vs = [v].
Proof.
  unfold applyHeaders.
  induction l as [|[k v] l IH] using rev_ind; intros H.
  - simpl in H. by rewrite lookup_empty in H.
  - rewrite foldl_app in H. simpl in H. unfold Header_Set at 1 in H.
    destruct (decide (CanonicalMIMEHeaderKey k = name)) as [Heq|Hne].
    + rewrite Heq, lookup_insert_eq in H. injection H as <-.
      exists k, v. split; [|split; [by symmetry|reflexivity]].
      apply elem_of_app. right. by apply list_elem_of_singleton.
    + rewrite lookup_insert_ne in H by exact Hne.
      destruct (IH H) as (k' & v' & Hin & Hn & Hv).
      exists k', v'. split; [|split; assumption].
      apply elem_of_app. by left.
Qed.

(** Every entry of the enumeration leaves a header under its canonical
    name. *)
Lemma applyHeaders_is_Some (l : list (string * string))
  (h : gmap string (list string)) (k v : string) :
  (k, v) ∈ l -> is_Some (applyHeaders h l !! CanonicalMIMEHeaderKey k).
Proof.
  unfold applyHeaders.
  induction l as [|[k0 v0] l IH] using rev_ind; intros Hin.
  - by apply elem_of_nil in Hin.
  - rewrite foldl_app. simpl. unfold Header_Set at 1.
    destruct (decide (CanonicalMIMEHeaderKey k0 = CanonicalMIMEHeaderKey k))
      as [Heq|Hne].
    + rewrite Heq, lookup_insert_eq. eauto.
    + rewrite lookup_insert_ne by exact Hne. apply IH.
      apply elem_of_app in Hin as [Hin|Hin]; [exact Hin|].
      apply list_elem_of_singleton in Hin. congruence.
Qed.

(** C7 (as the code has it).  After [WithHeader(K, a)] and then
    [WithHeader(K, b)] the header store holds one entry for [K], with value
    [b].  The materialised request carries its headers under their
    canonical names: any header of it named as [K] is the one stored under
    the canonical form of [K], and that header is there, with a single
    value.  The value is [b] provided that no other key of the store has
    the same canonical form as [K]. *)
Theorem header_overwrite (r : Request) (K a b : string) :
  header (WithHeader K b (WithHeader K a r)) = <[K := b]> (header r) /\
  header (WithHeader K b (WithHeader K a r)) !! K = Some b /\
  forall req,
    toHTTPRequest (WithHeader K b (WithHeader K a r)) = inr req ->
    (forall name vs,
       Header req !! name = Some vs ->
       CanonicalMIMEHeaderKey name = CanonicalMIMEHeaderKey K ->
       name = CanonicalMIMEHeaderKey K) /\
    (exists v, Header_Values (Header req) K = [v]) /\
    ((forall K', is_Some (header r !! K') ->
        CanonicalMIMEHeaderKey K' = CanonicalMIMEHeaderKey K -> K' = K) ->
     Header_Values (Header req) K = [b]).
Proof.
  assert (header (WithHeader K b (WithHeader K a r)) = <[K := b]> (header r))
    as Hstore by (simpl; apply insert_insert_eq).
  split; [exact Hstore|]. split; [rewrite Hstore; apply lookup_insert_eq|].
  intros req Hreq.
  apply toHTTPRequest_inv in Hreq as (_ & _ & _ & _ & HH).
  rewrite Hstore in HH.
  assert (forall k v, (k, v) ∈ rangeOrder (<[K := b]> (header r)) <->
                      <[K := b]> (header r) !! k = Some v) as Hrange.
  { intros k v. rewrite (rangeOrder_perm _). apply elem_of_map_to_list. }
  split; [|split].
  - intros name vs Hname Hcanon. rewrite HH in Hname.
    apply applyHeaders_names in Hname as (k & v & _ & -> & _).
    rewrite CanonicalMIMEHeaderKey_idem in Hcanon. exact Hcanon.
  - assert ((K, b) ∈ rangeOrder (<[K := b]> (header r))) as Hin
      by (apply Hrange, lookup_insert_eq).
    destruct (applyHeaders_is_Some _ ∅ K b Hin) as [vs Hvs].
    pose proof Hvs as Hvs'.
    apply applyHeaders_names in Hvs' as (k & v & _ & _ & ->).
    exists v. unfold Header_Values. rewrite HH, Hvs. reflexivity.
  - intros Hunique. unfold Header_Values. rewrite HH.
    rewrite (applyHeaders_lookup _ _ (CanonicalMIMEHeaderKey K) b); [reflexivity| |].
    + exists K. split; [|reflexivity]. apply Hrange, lookup_insert_eq.
    + intros k v Hin Hk. apply Hrange in Hin.
      destruct (decide (K = k)) as [->|Hne].
      * rewrite lookup_insert_eq in Hin. congruence.
      * rewrite lookup_insert_ne in Hin by exact Hne.
        exfalso. apply Hne. symmetry. apply Hunique; [eauto|exact Hk].
Qed.

End Materialisation.

(** ** The theorems at work on the concrete environments *)

(** A failed [WithJSON] sets the error; the calls that do not encode keep
    it and [Do] returns it. *)
Lemma deferred_error_flow_witness :
  err failedRequest = Some "json: unsupported value"%string /\
  Error (WithRetry 2 failedRequest) = Some "json: unsupported value"%string /\
  Do failedRequest (demoWorld 0) =
    ((None, Some "json: unsupported value"%string), demoWorld 0).
Proof.
  assert (err failedRequest = Some "json: unsupported value"%string) as He
    by reflexivity.
  split; [exact He|].
  destruct (deferred_error_flow (E:=inOrder) failedRequest _ (demoWorld 0)
              false false He)
    as (_ & _ & _ & _ & _ & _ & Hretry & _ & _ & HDo & _).
  split; [apply Hretry|exact HDo].
Defined.

(** A successful [WithJSON] after a failed one clears the deferred error,
    and [Do] then sends the request: the error first stored is neither
    preserved nor returned. *)
Lemma deferred_error_overwritten :
  Error failedRequest = Some "json: unsupported value"%string /\
  Error (WithJSON (E:=inOrder) true failedRequest) <> Some "json: unsupported value"%string /\
  (Do (WithJSON (E:=inOrder) true failedRequest) (demoWorld 0)).1 <>
    (None, Some "json: unsupported value"%string) /\
  (Do (WithJSON (E:=inOrder) true failedRequest) (demoWorld 0)).1 = (Some firstAnswer, None) /\
  length (calls (Do (WithJSON (E:=inOrder) true failedRequest) (demoWorld 0)).2) = 1%nat.
Proof.
  split; [reflexivity|].
  split; [vm_compute; discriminate|].
  split; [vm_compute; discriminate|].
  split; vm_compute; reflexivity.
Qed.

Lemma terminal_deferred_error_witness :
  err failedRequest = Some "json: unsupported value"%string /\
  Bytes failedRequest (demoWorld 0) =
    (Returns ([], Some "json: unsupported value"%string), demoWorld 0) /\
  JSONWithError (E:=inOrder) false false failedRequest (demoWorld 0) =
    (Returns ((false, Some "json: unsupported value"%string), (false, false)),
     demoWorld 0).
Proof.
  assert (err failedRequest = Some "json: unsupported value"%string) as He
    by reflexivity.
  split; [exact He|].
  destruct (terminal_deferred_error (E:=inOrder) failedRequest _ (demoWorld 0) false false He)
    as (_ & HBytes & _ & _ & _ & HJSON & _).
  split; [exact HBytes|exact HJSON].
Defined.

(** Expected status 201, no retry: the first answer, 500, is decoded into
    [errOut] and [out] keeps its contents. *)
Lemma WithError_contract_witness :
  expectedStatus (WithExpectedStatus 201 demoRequest) > 0 /\
  (Do (WithExpectedStatus 201 demoRequest) (demoWorld 0)).1 =
    (Some firstAnswer, None) /\
  (JSONWithError (E:=inOrder) false false (WithExpectedStatus 201 demoRequest) (demoWorld 0)).1 =
    Returns ((false, None), (false, true)).
Proof.
  assert (expectedStatus (WithExpectedStatus 201 demoRequest) > 0) as Hs
    by (simpl; lia).
  assert (Do (WithExpectedStatus 201 demoRequest) (demoWorld 0) =
          ((Some firstAnswer, None),
           (Do (WithExpectedStatus 201 demoRequest) (demoWorld 0)).2)) as HDo
    by (vm_compute; reflexivity).
  split; [exact Hs|]. split; [rewrite HDo; reflexivity|].
  destruct (WithError_contract (E:=inOrder) _ _ _ _ false false Hs HDo) as [_ Hmis].
  destruct Hmis as [HJ _]; [vm_compute; discriminate|].
  rewrite HJ. reflexivity.
Defined.

(** No expected status: the same answer is decoded into [out]. *)
Lemma no_expected_status_witness :
  expectedStatus demoRequest <= 0 /\
  (JSONWithError (E:=inOrder) false false demoRequest (demoWorld 0)).1 =
    Returns ((true, None), (true, false)) /\
  doRetry demoClient demoHTTPRequest (expectedStatus demoRequest) 5 (demoWorld 0) =
    clientDo demoClient demoHTTPRequest (demoWorld 0).
Proof.
  assert (expectedStatus demoRequest <= 0) as Hs by (simpl; lia).
  split; [exact Hs|].
  destruct (no_expected_status (E:=inOrder) demoRequest false false Hs) as [Hdec Hretry].
  split.
  - assert (Do demoRequest (demoWorld 0) =
            ((Some firstAnswer, None), (Do demoRequest (demoWorld 0)).2)) as HDo
      by (vm_compute; reflexivity).
    destruct (Hdec _ _ _ HDo) as [HJ _]. rewrite HJ. reflexivity.
  - apply Hretry.
Defined.

Lemma body_round_trip_witness :
  exists req,
    toHTTPRequest (WithBytes [Byte.x68; Byte.x69] demoRequest) = inr req /\
    readAll req = [Byte.x68; Byte.x69].
Proof.
  destruct (toHTTPRequest_total (WithBytes [Byte.x68; Byte.x69] demoRequest)
              eq_refl) as [req Hreq].
  exists req. split; [exact Hreq|].
  exact (proj1 (body_round_trip demoRequest _ "" req) Hreq).
Defined.

(** The store already holds [x]; [Accept] has another canonical form, so
    the last value written for it is the one materialised, also when
    [Range] enumerates backwards.  On the same store the key [X] still has
    its single entry and its single header, whatever the value. *)
Lemma header_overwrite_witness :
  (exists req,
     toHTTPRequest (WithHeader "Accept" "b" (WithHeader "Accept" "a" lowerCaseRequest))
       = inr req /\
     Header_Values (Header req) "Accept" = ["b"%string]) /\
  header (WithHeader "X" "b" (WithHeader "X" "a" lowerCaseRequest)) !! "X"%string
    = Some "b"%string /\
  (exists req v,
     toHTTPRequest (WithHeader "X" "b" (WithHeader "X" "a" lowerCaseRequest))
       = inr req /\
     Header_Values (Header req) "X" = [v]).
Proof.
  split; [|split].
  - destruct (toHTTPRequest_total
                (WithHeader "Accept" "b" (WithHeader "Accept" "a" lowerCaseRequest))
                eq_refl) as [req Hreq].
    exists req. split; [exact Hreq|].
    destruct (header_overwrite lowerCaseRequest "Accept" "a" "b")
      as (_ & _ & Hmat).
    destruct (Hmat req Hreq) as (_ & _ & Hvalue).
    apply Hvalue.
    intros K' [v Hv] Hcanon.
    change (header lowerCaseRequest)
      with (<["x" := "c"]> (∅ : gmap string string)) in Hv.
    apply lookup_insert_Some in Hv as [[<- _]|[_ Hv]];
      [|by rewrite lookup_empty in Hv].
    vm_compute in Hcanon. discriminate.
  - exact (proj1 (proj2 (header_overwrite lowerCaseRequest "X" "a" "b"))).
  - destruct (toHTTPRequest_total
                (WithHeader "X" "b" (WithHeader "X" "a" lowerCaseRequest))
                eq_refl) as [req Hreq].
    destruct (header_overwrite lowerCaseRequest "X" "a" "b") as (_ & _ & Hmat).
    destruct (Hmat req Hreq) as (_ & [v Hv] & _).
    exists req, v. split; [exact Hreq|exact Hv].
Defined.

(** The store already holds [x], which has the canonical form of [X].
    After [WithHeader("X", "a")] and [WithHeader("X", "b")] a [Range] that
    visits [X] before [x] leaves the header [X] with the value [c]. *)
Lemma header_overwrite_counterexample :
  ~ (forall req,
       toHTTPRequest (WithHeader "X" "b" (WithHeader "X" "a" lowerCaseRequest))
         = inr req ->
       Header_Values (Header req) "X" = ["b"%string]).
Proof.
  intros H.
  assert (exists req,
            toHTTPRequest (WithHeader "X" "b" (WithHeader "X" "a" lowerCaseRequest))
              = inr req /\
            Header_Values (Header req) "X" = ["c"%string]) as (req & Hreq & Hc).
  { eexists. split; [vm_compute; reflexivity|vm_compute; reflexivity]. }
  specialize (H req Hreq). rewrite Hc in H. discriminate.
Qed.

(** * Further properties of the retry executor *)

Section RetryRuns.

Context {E : Env}.

Lemma attempt_first (c : Client) (r : HTTPRequest) (w : World) :
  attempt c r 1 w = (clientDo c r w).1.
Proof. reflexivity. Qed.

Lemma attempt_next (c : Client) (r : HTTPRequest) (k : nat) (w : World) :
  attempt c r (S (S k)) w = attempt c r (S k) (clientDo c r w).2.
Proof. reflexivity. Qed.

(** Every run of [doRetry] is a run of attempts: it returns what some
    attempt [k] answered, in the state after [k] sends, with [k] at least 1
    and at most one more than the retry count (a negative count counts as
    zero); every attempt before it answered with a status other than the
    expected one, and the [k]-th attempt is a transport error, a response
    that does not ask for a retry, or the last attempt allowed. *)
Lemma doRetry_run (c : Client) (r : HTTPRequest) (s : Z) (m : nat) :
  forall (n : Z) (w : World), Z.to_nat n = m ->
    exists k,
      (1 <= k <= m + 1)%nat /\
      doRetry c r s n w = (attempt c r k w, stateAfter c r k w) /\
      (forall j, (1 <= j < k)%nat -> s > 0 /\ mismatch c r s j w) /\
      (forall x, attempt c r k w = inr x ->
                 s <= 0 \/ StatusCode x = s \/ k = (m + 1)%nat).
Proof.
  induction m as [|m IH]; intros n w Hm; rewrite doRetry_step;
    destruct (clientDo c r w) as [[e|x] w1] eqn:Hdo.
  - exists 1%nat. rewrite attempt_first. simpl. rewrite Hdo.
    repeat split; first [lia|intros; discriminate].
  - destruct (retryGuard s (StatusCode x) n) as [G|G]; [lia|].
    exists 1%nat. rewrite attempt_first. simpl. rewrite Hdo.
    repeat split; lia.
  - exists 1%nat. rewrite attempt_first. simpl. rewrite Hdo.
    repeat split; first [lia|intros; discriminate].
  - destruct (retryGuard s (StatusCode x) n) as [G|G].
    + destruct (IH (n - 1) w1 ltac:(lia)) as (k & Hk & Hrun & Hbefore & Hstop).
      exists (S k). destruct k as [|k]; [lia|].
      rewrite attempt_next. simpl stateAfter. rewrite Hdo. simpl.
      split; [lia|]. split; [exact Hrun|]. split.
      * intros j Hj. split; [lia|]. destruct j as [|[|j]]; [lia| |].
        -- exists x. rewrite attempt_first, Hdo. split; [reflexivity|lia].
        -- destruct (Hbefore (S j) ltac:(lia)) as [_ (y & Hy & Hne)].
           exists y. rewrite attempt_next, Hdo. split; assumption.
      * intros y Hy. destruct (Hstop y Hy) as [H|[H|H]]; [tauto|tauto|].
        right. right. lia.
    + exists 1%nat. rewrite attempt_first. simpl. rewrite Hdo.
      split; [lia|]. split; [reflexivity|]. split; [intros j Hj; lia|].
      intros y [= <-].
      destruct (decide (s <= 0)); [tauto|].
      destruct (decide (StatusCode x = s)); [tauto|]. exfalso. lia.
Qed.

(** X1.  [doRetry] hands the same request to the transport at least once
    and at most one time more than the retry count (a negative count
    counts as zero), and returns what the last of these sends answered. *)
Theorem doRetry_bounded (c : Client) (r : HTTPRequest) (s n : Z) (w : World) :
  exists k,
    (1 <= k <= Z.to_nat n + 1)%nat /\
    doRetry c r s n w = (attempt c r k w, stateAfter c r k w) /\
    calls (doRetry c r s n w).2 = calls w ++ replicate k r.
Proof.
  destruct (doRetry_run c r s (Z.to_nat n) n w eq_refl) as (k & Hk & Hrun & _).
  exists k. split; [exact Hk|]. split; [exact Hrun|].
  rewrite Hrun. apply stateAfter_calls.
Qed.

(** X2.  With an expected status and a non-negative retry count, a
    response whose status is not the expected one is returned only when
    the retries are used up: the transport was invoked exactly one time
    more than the retry count, and every attempt mismatched. *)
Theorem doRetry_mismatch_exhausted (c : Client) (r : HTTPRequest) (s n : Z)
  (w w1 : World) (x : HTTPResponse) :
  s > 0 -> n >= 0 ->
  doRetry c r s n w = (inr x, w1) ->
  StatusCode x <> s ->
  calls w1 = calls w ++ replicate (Z.to_nat n + 1) r /\
  forall j, (1 <= j <= Z.to_nat n + 1)%nat -> mismatch c r s j w.
Proof.
  intros Hs Hn Hret Hne.
  destruct (doRetry_run c r s (Z.to_nat n) n w eq_refl)
    as (k & Hk & Hrun & Hbefore & Hstop).
  rewrite Hret in Hrun. injection Hrun as Hx Hw.
  destruct (Hstop x (eq_sym Hx)) as [H|[H|H]]; [lia|congruence|].
  subst k. split.
  - rewrite Hw. apply stateAfter_calls.
  - intros j Hj. destruct (decide (j = Z.to_nat n + 1)%nat) as [->|Hj'].
    + exists x. split; [by symmetry|exact Hne].
    + apply Hbefore. lia.
Qed.

Lemma doRetry_more_retries_aux (c : Client) (r : HTTPRequest) (s : Z) (m : nat) :
  forall (n n' : Z) (w w1 : World) (out : GoError + HTTPResponse),
    Z.to_nat n = m -> n <= n' ->
    doRetry c r s n w = (out, w1) ->
    (forall x, out = inr x -> s <= 0 \/ StatusCode x = s) ->
    doRetry c r s n' w = (out, w1).
Proof.
  induction m as [|m IH]; intros n n' w w1 out Hm Hle Hret Hfinal;
    rewrite doRetry_step in Hret; rewrite doRetry_step;
    destruct (clientDo c r w) as [[e|x] w2]; try exact Hret;
    destruct (retryGuard s (StatusCode x) n) as [G|G];
    destruct (retryGuard s (StatusCode x) n') as [G'|G']; try exact Hret;
    try lia.
  - injection Hret as <- <-. destruct (Hfinal x eq_refl); lia.
  - apply (IH (n - 1) (n' - 1) w2 w1 out); try lia; assumption.
Qed.

(** X3.  A run that ends in a transport error, or in a response that does
    not ask for a retry (no expected status, or the expected status
    received), ends in the same way for every larger retry count. *)
Theorem doRetry_more_retries (c : Client) (r : HTTPRequest) (s n n' : Z)
  (w w1 : World) (out : GoError + HTTPResponse) :
  n <= n' ->
  doRetry c r s n w = (out, w1) ->
  (forall x, out = inr x -> s <= 0 \/ StatusCode x = s) ->
  doRetry c r s n' w = (out, w1).
Proof. apply (doRetry_more_retries_aux c r s (Z.to_nat n)). reflexivity. Qed.

End RetryRuns.

(** One retry against the answers 500, 500, 201 with 201 expected: the
    response returned is a 500 and both sends were made. *)
Lemma doRetry_mismatch_exhausted_witness :
  exists x w1,
    doRetry demoClient demoHTTPRequest 201 1 (demoWorld 0) = (inr x, w1) /\
    StatusCode x <> 201 /\
    calls w1 = calls (demoWorld 0) ++ replicate (Z.to_nat 1 + 1) demoHTTPRequest.
Proof.
  eexists _, _. split; [vm_compute; reflexivity|].
  split; [vm_compute; discriminate|].
  refine (proj1 (doRetry_mismatch_exhausted demoClient demoHTTPRequest 201 1
                   (demoWorld 0) _ _ _ _ _ _)).
  - lia.
  - lia.
  - vm_compute. reflexivity.
  - vm_compute. discriminate.
Defined.

(** Two retries reach the 201; seven retries end in the same way. *)
Lemma doRetry_more_retries_witness :
  exists out w1,
    doRetry demoClient demoHTTPRequest 201 2 (demoWorld 0) = (out, w1) /\
    doRetry demoClient demoHTTPRequest 201 7 (demoWorld 0) = (out, w1).
Proof.
  eexists _, _. split; [vm_compute; reflexivity|].
  apply (doRetry_more_retries demoClient demoHTTPRequest 201 2 7 (demoWorld 0)).
  - lia.
  - vm_compute. reflexivity.
  - intros x [= <-]. right. reflexivity.
Defined.

(** * Further properties of the terminal methods *)

Section Terminals.

Context {E : Env}.

Lemma toHTTPRequest_error (r : Request) (e : GoError) :
  toHTTPRequest r = inl e <->
  newRequestError (method r) (baseURL r +:+ path r) = Some e.
Proof.
  unfold toHTTPRequest, NewRequest.
  destruct (newRequestError (method r) (baseURL r +:+ path r)) as [e'|].
  - split; intros [= ->]; reflexivity.
  - split; discriminate.
Qed.

Lemma Do_closed (r : Request) (w : World) : closed (Do r w).2 = closed w.
Proof.
  unfold Do. destruct (err r); [reflexivity|].
  destruct (toHTTPRequest r) as [e|req]; [reflexivity|].
  pose proof (doRetry_closed (client r) req (expectedStatus r) (retryCount r) w)
    as H.
  destruct (doRetry (client r) req (expectedStatus r) (retryCount r) w)
    as [[e|x] w1]; exact H.
Qed.

Lemma Do_materialised (r : Request) (req : HTTPRequest) (w : World) :
  err r = None -> toHTTPRequest r = inr req ->
  (Do r w).2 = (doRetry (client r) req (expectedStatus r) (retryCount r) w).2 /\
  forall x w1, Do r w = ((Some x, None), w1) ->
    doRetry (client r) req (expectedStatus r) (retryCount r) w = (inr (res x), w1).
Proof.
  intros He Hreq. unfold Do. rewrite He, Hreq.
  destruct (doRetry (client r) req (expectedStatus r) (retryCount r) w)
    as [[e|y] w1]; split; try reflexivity; intros x w2 [= <- <-]; reflexivity.
Qed.

(** After an error of [Do] the continuation is not run and nothing is
    closed. *)
Lemma withResponse_error {A : Type} (r : Request) (w w1 : World)
  (resp : option Response) (e : GoError) (onError : GoError -> A)
  (k : Response -> A) :
  Do r w = ((resp, Some e), w1) ->
  withResponse r w onError k = (Returns (onError e), w1).
Proof. intros H. unfold withResponse. rewrite H. destruct resp; reflexivity. Qed.

Lemma withResponse_ok {A : Type} (r : Request) (w w1 : World) (x : Response)
  (onError : GoError -> A) (k : Response -> A) :
  Do r w = ((Some x, None), w1) ->
  withResponse r w onError k = (Returns (k x), Response_Close x w1).
Proof. intros H. unfold withResponse. rewrite H. reflexivity. Qed.

(** X4.  [Do] closes nothing.  With a deferred error, or when the request
    cannot be materialised, it leaves the world as it was.  Otherwise it
    hands the materialised request, the same one each time, to the
    transport at least once and at most one time more than the retry
    count. *)
Theorem Do_invocations (r : Request) (w : World) :
  closed (Do r w).2 = closed w /\
  (err r <> None -> (Do r w).2 = w) /\
  (forall e, toHTTPRequest r = inl e -> (Do r w).2 = w) /\
  (forall req, err r = None -> toHTTPRequest r = inr req ->
     exists k, (1 <= k <= Z.to_nat (retryCount r) + 1)%nat /\
               calls (Do r w).2 = calls w ++ replicate k req).
Proof.
  split; [apply Do_closed|]. split; [|split].
  - intros He. unfold Do. destruct (err r); [reflexivity|congruence].
  - intros e He. unfold Do. rewrite He. destruct (err r); reflexivity.
  - intros req He Hreq.
    destruct (Do_materialised r req w He Hreq) as [-> _].
    destruct (doRetry_run (client r) req (expectedStatus r)
                (Z.to_nat (retryCount r)) (retryCount r) w eq_refl)
      as (k & Hk & Hrun & _).
    exists k. split; [exact Hk|]. rewrite Hrun. apply stateAfter_calls.
Qed.

(** X5.  When [http.NewRequest] refuses the method or the URL of a request
    without deferred error, every terminal method returns that error,
    leaves its targets untouched and leaves the world as it was. *)
Theorem terminal_newrequest_error (r : Request) (e : GoError) (w : World)
  (out errOut : Value) :
  err r = None ->
  newRequestError (method r) (baseURL r +:+ path r) = Some e ->
  Do r w = ((None, Some e), w) /\
  Bytes r w = (Returns ([], Some e), w) /\
  String r w = (Returns (""%string, Some e), w) /\
  JSON out r w = (Returns (Some e, out), w) /\
  XML out r w = (Returns (Some e, out), w) /\
  JSONWithError out errOut r w = (Returns ((false, Some e), (out, errOut)), w) /\
  XMLWithError out errOut r w = (Returns ((false, Some e), (out, errOut)), w).
Proof.
  intros He Hnew. apply toHTTPRequest_error in Hnew.
  assert (Do r w = ((None, Some e), w)) as HDo
    by (unfold Do; rewrite He, Hnew; reflexivity).
  unfold String, Bytes, JSON, XML, JSONWithError, XMLWithError.
  rewrite !(withResponse_error r w w None e) by exact HDo.
  repeat split; exact HDo.
Qed.

(** X6.  Whatever error [Do] returns (deferred, from the materialisation
    or from the transport), each convenience method returns that same
    error with an empty result, decodes nothing, leaves [out] and [errOut]
    as they were and closes nothing: the world is the one [Do] left. *)
Theorem terminal_error_propagation (r : Request) (w w1 : World)
  (resp : option Response) (e : GoError) (out errOut : Value) :
  Do r w = ((resp, Some e), w1) ->
  Bytes r w = (Returns ([], Some e), w1) /\
  String r w = (Returns (""%string, Some e), w1) /\
  JSON out r w = (Returns (Some e, out), w1) /\
  XML out r w = (Returns (Some e, out), w1) /\
  JSONWithError out errOut r w = (Returns ((false, Some e), (out, errOut)), w1) /\
  XMLWithError out errOut r w = (Returns ((false, Some e), (out, errOut)), w1) /\
  closed w1 = closed w.
Proof.
  intros HDo.
  unfold String, Bytes, JSON, XML, JSONWithError, XMLWithError.
  rewrite !(withResponse_error r w w1 resp e) by exact HDo.
  repeat split. rewrite <- (Do_closed r w), HDo. reflexivity.
Qed.

(** X7.  When [Do] returns a response, [Bytes], [JSON] and [XML] return
    what the decoder of the response returns, [String] returns the bytes as
    a string, or the empty string with the error when reading failed, and
    each of them closes that response exactly once and sends nothing
    more. *)
Theorem terminal_success_closes (r : Request) (w w1 : World) (x : Response)
  (out : Value) :
  Do r w = ((Some x, None), w1) ->
  Bytes r w = (Returns (Response_Bytes x), Response_Close x w1) /\
  String r w =
    (Returns (match Response_Bytes x with
              | (_, Some e) => (""%string, Some e)
              | (b, None) => (String.string_of_list_byte b, None)
              end), Response_Close x w1) /\
  JSON out r w =
    (Returns ((Response_JSON x out).2, (Response_JSON x out).1),
     Response_Close x w1) /\
  XML out r w =
    (Returns ((Response_XML x out).2, (Response_XML x out).1),
     Response_Close x w1) /\
  closed (Response_Close x w1) = closed w ++ [x] /\
  calls (Response_Close x w1) = calls w1 /\
  net (Response_Close x w1) = net w1.
Proof.
  intros HDo.
  unfold String, Bytes, JSON, XML.
  rewrite !(withResponse_ok r w w1 x) by exact HDo.
  destruct (Response_Bytes x) as [b [e|]], (Response_JSON x out),
    (Response_XML x out); repeat split; simpl;
    rewrite <- (Do_closed r w), HDo; reflexivity.
Qed.

(** X8.  [JSONWithError] is [JSON] on one of its two targets: when it
    returns [true], its error, the contents of [out] and the world are
    those of [JSON(out)] and [errOut] is as before; when it returns
    [false], its error, the contents of [errOut] and the world are those
    of [JSON(errOut)] and [out] is as before.  Likewise [XMLWithError] and
    [XML]. *)
Theorem WithError_is_plain_decode (r : Request) (w : World)
  (out errOut : Value) :
  (forall e o eo w',
     JSONWithError out errOut r w = (Returns ((true, e), (o, eo)), w') ->
     JSON out r w = (Returns (e, o), w') /\ eo = errOut) /\
  (forall e o eo w',
     JSONWithError out errOut r w = (Returns ((false, e), (o, eo)), w') ->
     JSON errOut r w = (Returns (e, eo), w') /\ o = out) /\
  (forall e o eo w',
     XMLWithError out errOut r w = (Returns ((true, e), (o, eo)), w') ->
     XML out r w = (Returns (e, o), w') /\ eo = errOut) /\
  (forall e o eo w',
     XMLWithError out errOut r w = (Returns ((false, e), (o, eo)), w') ->
     XML errOut r w = (Returns (e, eo), w') /\ o = out).
Proof.
  unfold JSONWithError, XMLWithError, JSON, XML, withResponse.
  destruct (Do r w) as [[[x|] [e0|]] w1];
    (split; [|split; [|split]]); intros e o eo w' H; try discriminate;
    try (injection H as <- <- <- <-; split; reflexivity);
    destruct (bool_decide (expectedStatus r > 0) &&
              negb (bool_decide (Response_StatusCode x = expectedStatus r)));
    destruct (Response_JSON x out), (Response_JSON x errOut),
      (Response_XML x out), (Response_XML x errOut);
    try discriminate; injection H as <- <- <- <-; split; reflexivity.
Qed.

(** X9.  With an expected status and a non-negative retry count, [Do]
    returns a response whose status is not the expected one only after the
    materialised request was sent exactly one time more than the retry
    count. *)
Theorem Do_mismatch_exhausted (r : Request) (w w1 : World) (x : Response) :
  expectedStatus r > 0 -> retryCount r >= 0 ->
  Do r w = ((Some x, None), w1) ->
  Response_StatusCode x <> expectedStatus r ->
  exists req,
    toHTTPRequest r = inr req /\
    calls w1 = calls w ++ replicate (Z.to_nat (retryCount r) + 1) req.
Proof.
  intros Hs Hn HDo Hne.
  assert (err r = None) as He.
  { unfold Do in HDo. destruct (err r); [discriminate|reflexivity]. }
  destruct (toHTTPRequest r) as [e|req] eqn:Hreq.
  { unfold Do in HDo. rewrite He, Hreq in HDo. discriminate. }
  exists req. split; [reflexivity|].
  destruct (Do_materialised r req w He Hreq) as [_ Hretry].
  specialize (Hretry x w1 HDo).
  destruct (doRetry_run (client r) req (expectedStatus r)
              (Z.to_nat (retryCount r)) (retryCount r) w eq_refl)
    as (k & Hk & Hrun & _ & Hstop).
  rewrite Hretry in Hrun. injection Hrun as Hx Hw.
  destruct (Hstop (res x) (eq_sym Hx)) as [H|[H|H]];
    [lia|unfold Response_StatusCode in Hne; congruence|].
  subst k. rewrite Hw. apply stateAfter_calls.
Qed.

End Terminals.

(** A request without URL is refused by [http.NewRequest] in the concrete
    environment, and nothing is sent. *)
Lemma terminal_newrequest_error_witness :
  Do (@Build_Request inOrder None demoClient "GET" "" "" ∅ 0 0 None None)
     (demoWorld 0) = ((None, Some "empty url"%string), demoWorld 0).
Proof.
  refine (proj1 (terminal_newrequest_error (E:=inOrder)
                   (@Build_Request inOrder None demoClient "GET" "" "" ∅ 0 0
                      None None)
                   "empty url" (demoWorld 0) false false _ _));
    reflexivity.
Defined.

(** Once the script is used up the transport error reaches [Bytes]. *)
Lemma terminal_error_propagation_witness :
  (Do demoRequest (demoWorld 3)).1 = (None, Some "connection refused"%string) /\
  (Bytes demoRequest (demoWorld 3)).1 = Returns ([], Some "connection refused"%string).
Proof.
  assert (Do demoRequest (demoWorld 3) =
          ((None, Some "connection refused"%string),
           (Do demoRequest (demoWorld 3)).2)) as HDo
    by (vm_compute; reflexivity).
  split; [rewrite HDo; reflexivity|].
  destruct (terminal_error_propagation (E:=inOrder) demoRequest (demoWorld 3) _
              None _ false false HDo) as [HBytes _].
  rewrite HBytes. reflexivity.
Defined.

(** The first answer is read by [Bytes] and closed. *)
Lemma terminal_success_closes_witness :
  (Do demoRequest (demoWorld 0)).1 = (Some firstAnswer, None) /\
  (Bytes demoRequest (demoWorld 0)).1 =
    Returns (String.list_byte_of_string "true", None) /\
  closed (Bytes demoRequest (demoWorld 0)).2 = [firstAnswer].
Proof.
  assert (Do demoRequest (demoWorld 0) =
          ((Some firstAnswer, None), (Do demoRequest (demoWorld 0)).2)) as HDo
    by (vm_compute; reflexivity).
  split; [rewrite HDo; reflexivity|].
  destruct (terminal_success_closes (E:=inOrder) demoRequest (demoWorld 0) _
              firstAnswer false HDo) as (HBytes & _ & _ & _ & Hclosed & _).
  rewrite HBytes. split; [reflexivity|exact Hclosed].
Defined.

(** Expected status 201 and one retry against 500, 500, 201: [Do] returns
    a 500 after two sends. *)
Lemma Do_mismatch_exhausted_witness :
  (Do (WithRetry 1 (WithExpectedStatus 201 demoRequest)) (demoWorld 0)).1 =
    (Some firstAnswer, None) /\
  length (calls (Do (WithRetry 1 (WithExpectedStatus 201 demoRequest))
                    (demoWorld 0)).2) = 2%nat.
Proof.
  assert (Do (WithRetry 1 (WithExpectedStatus 201 demoRequest)) (demoWorld 0) =
          ((Some firstAnswer, None),
           (Do (WithRetry 1 (WithExpectedStatus 201 demoRequest))
               (demoWorld 0)).2)) as HDo
    by (vm_compute; reflexivity).
  split; [rewrite HDo; reflexivity|].
  destruct (Do_mismatch_exhausted (E:=inOrder)
              (WithRetry 1 (WithExpectedStatus 201 demoRequest)) (demoWorld 0)
              _ firstAnswer ltac:(simpl; lia) ltac:(simpl; lia) HDo
              ltac:(vm_compute; discriminate)) as (req & _ & Hcalls).
  rewrite Hcalls, length_app, length_replicate. reflexivity.
Defined.

(** * Further properties of the builder and of the materialisation *)

Section Configuration.

Context {E : Env}.

Lemma rangeOrder_lookup (m : gmap string string) (k v : string) :
  (k, v) ∈ rangeOrder m <-> m !! k = Some v.
Proof. rewrite (rangeOrder_perm m). apply elem_of_map_to_list. Qed.

(** The value materialised for a stored key, when no other stored key has
    its canonical form. *)
Lemma materialised_value (r : Request) (req : HTTPRequest) (K b : string) :
  toHTTPRequest r = inr req ->
  header r !! K = Some b ->
  (forall K', is_Some (header r !! K') ->
     CanonicalMIMEHeaderKey K' = CanonicalMIMEHeaderKey K -> K' = K) ->
  Header_Values (Header req) K = [b].
Proof.
  intros Hreq HK Hunique.
  apply toHTTPRequest_inv in Hreq as (_ & _ & _ & _ & HH).
  unfold Header_Values. rewrite HH.
  rewrite (applyHeaders_lookup _ _ (CanonicalMIMEHeaderKey K) b); [reflexivity| |].
  - exists K. split; [|reflexivity]. apply rangeOrder_lookup, HK.
  - intros k v Hin Hk. apply rangeOrder_lookup in Hin.
    rewrite (Hunique k (ex_intro _ v Hin) Hk) in Hin. congruence.
Qed.

(** X10.  The headers of the materialised request are the entries of the
    header store under their canonical names, each with a single value:
    every header comes from a stored entry, every stored key has its
    header, an empty store gives no header; and when no two stored keys
    share a canonical form, each stored key is materialised with exactly
    its stored value, whatever the order of [Range]. *)
Theorem headers_materialised (r : Request) (req : HTTPRequest) :
  toHTTPRequest r = inr req ->
  (forall name vs,
     Header req !! name = Some vs ->
     exists k v, header r !! k = Some v /\
                 name = CanonicalMIMEHeaderKey k /\ vs = [v]) /\
  (forall k, is_Some (header r !! k) ->
     exists k' v', header r !! k' = Some v' /\
                   CanonicalMIMEHeaderKey k' = CanonicalMIMEHeaderKey k /\
                   Header_Values (Header req) k = [v']) /\
  (header r = ∅ -> Header req = ∅) /\
  ((forall k k', is_Some (header r !! k) -> is_Some (header r !! k') ->
      CanonicalMIMEHeaderKey k = CanonicalMIMEHeaderKey k' -> k = k') ->
   forall k v, header r !! k = Some v -> Header_Values (Header req) k = [v]).
Proof.
  intros Hreq.
  pose proof (toHTTPRequest_inv r req Hreq) as (_ & _ & _ & _ & HH).
  assert (forall name vs,
            Header req !! name = Some vs ->
            exists k v, header r !! k = Some v /\
                        name = CanonicalMIMEHeaderKey k /\ vs = [v]) as Hfrom.
  { intros name vs Hname. rewrite HH in Hname.
    apply applyHeaders_names in Hname as (k & v & Hin & Hn & Hv).
    exists k, v. split; [apply rangeOrder_lookup, Hin|split; assumption]. }
  split; [exact Hfrom|]. split; [|split].
  - intros k [v Hk].
    assert (is_Some (Header req !! CanonicalMIMEHeaderKey k)) as [vs Hvs].
    { rewrite HH. apply rangeOrder_lookup in Hk.
      clear -Hk. unfold applyHeaders.
      induction (rangeOrder (header r)) as [|[k0 v0] l IH] using rev_ind;
        [by apply elem_of_nil in Hk|].
      rewrite foldl_app. simpl. unfold Header_Set at 1.
      destruct (decide (CanonicalMIMEHeaderKey k0 = CanonicalMIMEHeaderKey k))
        as [Heq|Hne].
      - rewrite Heq, lookup_insert_eq. eauto.
      - rewrite lookup_insert_ne by exact Hne. apply IH.
        apply elem_of_app in Hk as [Hk|Hk]; [exact Hk|].
        apply list_elem_of_singleton in Hk. congruence. }
    destruct (Hfrom _ _ Hvs) as (k' & v' & Hk' & Hcanon & ->).
    exists k', v'. split; [exact Hk'|]. split; [by symmetry|].
    unfold Header_Values. rewrite Hvs. reflexivity.
  - intros Hempty. apply map_eq. intros name. rewrite lookup_empty.
    destruct (Header req !! name) as [vs|] eqn:Hname; [|reflexivity].
    destruct (Hfrom _ _ Hname) as (k & v & Hk & _).
    rewrite Hempty, lookup_empty in Hk. discriminate.
  - intros Hinj k v Hk. apply (materialised_value r req k v Hreq Hk).
    intros K' HK' Hcanon. apply Hinj; [exact HK'|eauto|exact Hcanon].
Qed.

(** X11.  Materialisation fails exactly when [http.NewRequest] refuses the
    method or the URL, with that error.  When it succeeds the URL is the
    base URL followed by the path, the body is the configured one (none
    when none was set) and the context is the configured one (the
    background context when none was set).  The deferred error, the
    expected status and the retry count have no part in it. *)
Theorem toHTTPRequest_fields (r : Request) :
  (forall e, toHTTPRequest r = inl e <->
             newRequestError (method r) (baseURL r +:+ path r) = Some e) /\
  (forall req, toHTTPRequest r = inr req ->
     URL req = baseURL r +:+ path r /\
     ReqBody req = body r /\
     ReqCtx req = ctx r) /\
  (forall e s n,
     toHTTPRequest (set_err e (WithExpectedStatus s (WithRetry n r))) =
     toHTTPRequest r).
Proof.
  split; [intros e; apply toHTTPRequest_error|]. split.
  - intros req Hreq.
    apply toHTTPRequest_inv in Hreq as (_ & HU & HB & HC & _). auto.
  - intros e s n. reflexivity.
Qed.

(** Two requests with the same fields are the same request. *)
Lemma Request_ext (r r' : Request) :
  err r = err r' -> client r = client r' -> method r = method r' ->
  baseURL r = baseURL r' -> path r = path r' -> header r = header r' ->
  expectedStatus r = expectedStatus r' -> retryCount r = retryCount r' ->
  body r = body r' -> ctx r = ctx r' -> r = r'.
Proof. destruct r, r'; simpl; intros; subst; reflexivity. Qed.

Lemma WithJSON_setters (v : Value) (r : Request) :
  WithJSON v r =
  set_err (jsonEncode v).2
    (set_body (Some (jsonEncode v).1)
       (set_body (Some []) (WithContentType "application/json" r))).
Proof. unfold WithJSON. destruct (jsonEncode v). reflexivity. Qed.

Lemma WithXML_setters (v : Value) (r : Request) :
  WithXML v r =
  set_err (xmlEncode v).2
    (set_body (Some (xmlEncode v).1)
       (set_body (Some []) (WithContentType "application/xml" r))).
Proof. unfold WithXML. destruct (xmlEncode v). reflexivity. Qed.

(** Field by field comparison of two chains of configuration calls. *)
Ltac by_fields :=
  rewrite ?WithJSON_setters, ?WithXML_setters;
  apply Request_ext;
  cbn [err client method baseURL path header expectedStatus retryCount body
       ctx WithBytes WithString WithHeader WithContentType WithContext
       WithExpectedStatus WithRetry set_err set_body set_header set_ctx
       set_expectedStatus set_retryCount].

(** X12.  Configuration calls on different fields commute: the raw body
    setters, [WithHeader], [WithContext], [WithExpectedStatus] and
    [WithRetry] with one another, [WithHeader] with itself on two different
    keys, and [WithJSON] with every call that touches neither the body nor
    the [Content-Type] entry. *)
Theorem configuration_commutes (r : Request) :
  (forall b k v, WithBytes b (WithHeader k v r) = WithHeader k v (WithBytes b r)) /\
  (forall b c, WithBytes b (WithContext c r) = WithContext c (WithBytes b r)) /\
  (forall b s, WithBytes b (WithExpectedStatus s r) =
               WithExpectedStatus s (WithBytes b r)) /\
  (forall b n, WithBytes b (WithRetry n r) = WithRetry n (WithBytes b r)) /\
  (forall k v c, WithHeader k v (WithContext c r) =
                 WithContext c (WithHeader k v r)) /\
  (forall k v s, WithHeader k v (WithExpectedStatus s r) =
                 WithExpectedStatus s (WithHeader k v r)) /\
  (forall k v n, WithHeader k v (WithRetry n r) = WithRetry n (WithHeader k v r)) /\
  (forall c s, WithContext c (WithExpectedStatus s r) =
               WithExpectedStatus s (WithContext c r)) /\
  (forall c n, WithContext c (WithRetry n r) = WithRetry n (WithContext c r)) /\
  (forall s n, WithExpectedStatus s (WithRetry n r) =
               WithRetry n (WithExpectedStatus s r)) /\
  (forall k v k' v', k <> k' ->
     WithHeader k v (WithHeader k' v' r) = WithHeader k' v' (WithHeader k v r)) /\
  (forall x c, WithJSON x (WithContext c r) = WithContext c (WithJSON x r)) /\
  (forall x s, WithJSON x (WithExpectedStatus s r) =
               WithExpectedStatus s (WithJSON x r)) /\
  (forall x n, WithJSON x (WithRetry n r) = WithRetry n (WithJSON x r)) /\
  (forall x k v, k <> "Content-Type"%string ->
     WithJSON x (WithHeader k v r) = WithHeader k v (WithJSON x r)).
Proof.
  assert (forall k v k' v' (h : gmap string string), k <> k' ->
            <[k := v]> (<[k' := v']> h) = <[k' := v']> (<[k := v]> h)) as Hins
    by (intros; apply insert_insert_ne; assumption).
  repeat lazymatch goal with |- _ /\ _ => split end; intros; by_fields;
    first [reflexivity|apply Hins; congruence].
Qed.

(** X13.  On one field the last call wins.  A body setter replaces the
    body left by any earlier one; a later [WithHeader] on the same key, or
    [WithContext], [WithExpectedStatus], [WithRetry], replaces the earlier
    one outright; [WithJSON] and [WithXML] replace everything an earlier
    [WithJSON], [WithXML], [WithBytes] or [WithString] has set, the
    deferred error and the content type included, and replace the content
    type set by an earlier [WithContentType]. *)
Theorem configuration_last_wins (r : Request) :
  (forall b b', WithBytes b' (WithBytes b r) = WithBytes b' r) /\
  (forall s b', WithBytes b' (WithString s r) = WithBytes b' r) /\
  (forall b s', WithString s' (WithBytes b r) = WithString s' r) /\
  (forall s s', WithString s' (WithString s r) = WithString s' r) /\
  (forall k v v', WithHeader k v' (WithHeader k v r) = WithHeader k v' r) /\
  (forall t t', WithContentType t' (WithContentType t r) = WithContentType t' r) /\
  (forall c c', WithContext c' (WithContext c r) = WithContext c' r) /\
  (forall s s', WithExpectedStatus s' (WithExpectedStatus s r) =
                WithExpectedStatus s' r) /\
  (forall n n', WithRetry n' (WithRetry n r) = WithRetry n' r) /\
  (forall x x', WithJSON x' (WithJSON x r) = WithJSON x' r) /\
  (forall x x', WithXML x' (WithJSON x r) = WithXML x' r) /\
  (forall x x', WithJSON x' (WithXML x r) = WithJSON x' r) /\
  (forall x x', WithXML x' (WithXML x r) = WithXML x' r) /\
  (forall b x', WithJSON x' (WithBytes b r) = WithJSON x' r) /\
  (forall s x', WithJSON x' (WithString s r) = WithJSON x' r) /\
  (forall b x', WithXML x' (WithBytes b r) = WithXML x' r) /\
  (forall s x', WithXML x' (WithString s r) = WithXML x' r) /\
  (forall t x', WithJSON x' (WithContentType t r) = WithJSON x' r) /\
  (forall t x', WithXML x' (WithContentType t r) = WithXML x' r).
Proof.
  assert (forall k v v' (h : gmap string string),
            <[k := v']> (<[k := v]> h) = <[k := v']> h) as Hins
    by (intros; apply insert_insert_eq).
  repeat lazymatch goal with |- _ /\ _ => split end; intros; by_fields;
    first [reflexivity|apply Hins].
Qed.

(** X14.  After [WithJSON(v)] the materialised request carries as body the
    bytes that the JSON encoder wrote, and its [Content-Type] header has
    the single value [application/json], provided the header store holds
    no other spelling of [Content-Type].  Likewise [WithXML] with the XML
    encoder and [application/xml]. *)
Theorem encoded_body_materialised (r : Request) (v : Value) (req : HTTPRequest) :
  (forall K', is_Some (header r !! K') ->
     CanonicalMIMEHeaderKey K' = "Content-Type"%string ->
     K' = "Content-Type"%string) ->
  (toHTTPRequest (WithJSON v r) = inr req ->
   readAll req = (jsonEncode v).1 /\
   Header_Values (Header req) "Content-Type" = ["application/json"%string]) /\
  (toHTTPRequest (WithXML v r) = inr req ->
   readAll req = (xmlEncode v).1 /\
   Header_Values (Header req) "Content-Type" = ["application/xml"%string]).
Proof.
  intros Hunique.
  assert (forall t K',
            is_Some (<["Content-Type"%string := t]> (header r) !! K') ->
            CanonicalMIMEHeaderKey K' = CanonicalMIMEHeaderKey "Content-Type" ->
            K' = "Content-Type"%string) as Hunique'.
  { intros t K' [x Hx] Hcanon.
    apply lookup_insert_Some in Hx as [[<- _]|[_ Hx]]; [reflexivity|].
    apply Hunique; [eauto|exact Hcanon]. }
  split; intros Hreq.
  - split.
    + apply toHTTPRequest_inv in Hreq as (_ & _ & Hb & _).
      unfold readAll. rewrite Hb. unfold WithJSON.
      destruct (jsonEncode v). reflexivity.
    + apply (materialised_value _ _ _ _ Hreq).
      * unfold WithJSON. destruct (jsonEncode v). simpl. apply lookup_insert_eq.
      * unfold WithJSON. destruct (jsonEncode v). simpl. apply Hunique'.
  - split.
    + apply toHTTPRequest_inv in Hreq as (_ & _ & Hb & _).
      unfold readAll. rewrite Hb. unfold WithXML.
      destruct (xmlEncode v). reflexivity.
    + apply (materialised_value _ _ _ _ Hreq).
      * unfold WithXML. destruct (xmlEncode v). simpl. apply lookup_insert_eq.
      * unfold WithXML. destruct (xmlEncode v). simpl. apply Hunique'.
Qed.

End Configuration.

(** Two stored keys in lower case are materialised under their canonical
    names, each with its value. *)
Lemma headers_materialised_witness :
  exists req,
    toHTTPRequest (WithHeader "accept" "json" (WithHeader "x-token" "t" demoRequest))
      = inr req /\
    Header_Values (Header req) "accept" = ["json"%string] /\
    Header req !! "Accept"%string = Some ["json"%string].
Proof.
  destruct (toHTTPRequest_total
              (WithHeader "accept" "json" (WithHeader "x-token" "t" demoRequest))
              eq_refl) as [req Hreq].
  exists req. split; [exact Hreq|].
  destruct (headers_materialised _ req Hreq) as (_ & _ & _ & Hall).
  assert (Header_Values (Header req) "accept" = ["json"%string]) as Hv.
  { apply Hall; [|apply lookup_insert_eq].
    intros k k' [v Hk] [v' Hk'] Hcanon.
    change (header (WithHeader "accept" "json"
                      (WithHeader "x-token" "t" demoRequest)))
      with (<["accept" := "json"]>
              (<["x-token" := "t"]> (∅ : gmap string string))) in Hk, Hk'.
    apply lookup_insert_Some in Hk as [[<- _]|[_ Hk]];
      [|apply lookup_insert_Some in Hk as [[<- _]|[_ Hk]];
        [|by rewrite lookup_empty in Hk]];
      (apply lookup_insert_Some in Hk' as [[<- _]|[_ Hk']];
       [|apply lookup_insert_Some in Hk' as [[<- _]|[_ Hk']];
         [|by rewrite lookup_empty in Hk']]);
      first [reflexivity|vm_compute in Hcanon; discriminate]. }
  split; [exact Hv|].
  unfold Header_Values in Hv.
  change (CanonicalMIMEHeaderKey "accept") with "Accept"%string in Hv.
  destruct (Header req !! "Accept"%string) as [vs|]; simpl in Hv;
    [congruence|discriminate].
Defined.

(** A JSON body next to an [accept] header: the body is the encoder's
    output and the content type is the one of JSON. *)
Lemma encoded_body_materialised_witness :
  exists req,
    toHTTPRequest (WithJSON (E:=inOrder) true (WithHeader "accept" "x" demoRequest))
      = inr req /\
    readAll req = String.list_byte_of_string "true" /\
    Header_Values (Header req) "Content-Type" = ["application/json"%string].
Proof.
  destruct (toHTTPRequest_total
              (WithJSON (E:=inOrder) true (WithHeader "accept" "x" demoRequest))
              eq_refl) as [req Hreq].
  exists req. split; [exact Hreq|].
  refine (proj1 (encoded_body_materialised (E:=inOrder)
                   (WithHeader "accept" "x" demoRequest) true req _) Hreq).
  intros K' [v Hv] Hcanon.
  change (header (WithHeader "accept" "x" demoRequest))
    with (<["accept" := "x"]> (∅ : gmap string string)) in Hv.
  apply lookup_insert_Some in Hv as [[<- _]|[_ Hv]];
    [vm_compute in Hcanon; discriminate|by rewrite lookup_empty in Hv].
Defined.
